(** * Nodal Scene Interface: the C headers [nsi.h] and [nsi_procedural.h]

    The repository is a pair of C headers.  What they contain that can be
    evaluated is embedded here: the constants, the enumerations with their
    numeric values, the inline function [NSITypeSizeOf] with its static
    table, the statement macro [NSI_PROCEDURAL_INIT], and the declared
    types of the callbacks and of the procedural descriptor.

    Conventions.
    - [unsigned] and [size_t] values are in [N]; [int] values are in [Z].
      No arithmetic is done on them by the headers, so no wrap-around
      arises, except for the narrowing of the table initialisers to
      [unsigned char], which is written out ([to_uchar]).
    - [sizeof] is a property of the C implementation.  It is a parameter
      ([abi]); two usual instances are given ([lp64], [ilp32]).
    - Reading an array outside its bounds has no defined result in C; the
      array read returns [option], [None] standing for such a read. *)

From Stdlib Require Import NArith ZArith List String Bool Lia.
Import ListNotations.

Local Open Scope string_scope.

(* ================================================================= *)
(** ** C types, as far as the declarations of the headers need them *)

#[local] Unset Elimination Schemes.
Inductive ctype : Type :=
| Tvoid
| Tchar
| Tint
| Tunsigned
| Tdouble
| Tsize_t
| Tconst (t : ctype)
| Tptr (t : ctype)
| Tstruct (tag : string)
| Tfun (ret : ctype) (params : list (string * ctype)).
#[local] Set Elimination Schemes.

(** The parameter list of a function type or of a pointer to one. *)
Definition params_of (t : ctype) : list (string * ctype) :=
  match t with
  | Tfun _ ps => ps
  | Tptr (Tfun _ ps) => ps
  | _ => []
  end.

Definition return_of (t : ctype) : option ctype :=
  match t with
  | Tfun r _ => Some r
  | Tptr (Tfun r _) => Some r
  | _ => None
  end.

Definition param_names (t : ctype) : list string := map fst (params_of t).
Definition param_types (t : ctype) : list ctype := map snd (params_of t).

(* ================================================================= *)
(** ** The C implementation: what [sizeof] yields *)

Record abi : Type := {
  sizeof_float : N;
  sizeof_int : N;
  sizeof_double : N;
  sizeof_char_ptr : N;   (* sizeof(char* ) *)
  sizeof_void_ptr : N    (* sizeof(void* ) *)
}.

(** 64-bit Unix-like targets. *)
Definition lp64 : abi :=
  {| sizeof_float := 4; sizeof_int := 4; sizeof_double := 8;
     sizeof_char_ptr := 8; sizeof_void_ptr := 8 |}.

(** 32-bit targets. *)
Definition ilp32 : abi :=
  {| sizeof_float := 4; sizeof_int := 4; sizeof_double := 8;
     sizeof_char_ptr := 4; sizeof_void_ptr := 4 |}.

(** Conversion to [unsigned char] (8 bits): reduction modulo 256. *)
Definition to_uchar (n : N) : N := (n mod 256)%N.
Arguments to_uchar : simpl never.

(** IEEE single and double precision floats and a 4-byte [int]. *)
Definition ieee_int32 (a : abi) : Prop :=
  sizeof_float a = 4%N /\ sizeof_int a = 4%N /\ sizeof_double a = 8%N.

(** [char*] and [void*] have the same representation, hence the same
    size, the pointer width; it is positive and fits an [unsigned char]. *)
Definition pointer_width (a : abi) : N := sizeof_void_ptr a.

Definition pointers_fit (a : abi) : Prop :=
  sizeof_char_ptr a = pointer_width a /\
  (0 < pointer_width a)%N /\ (pointer_width a < 256)%N.

(** Every initialiser of the size table is positive where it is not the
    literal 0, and survives the narrowing to [unsigned char]. *)
Definition sizes_fit (a : abi) : Prop :=
  (0 < sizeof_float a)%N /\ (16 * sizeof_float a < 256)%N /\
  (0 < sizeof_int a)%N /\ (sizeof_int a < 256)%N /\
  (0 < sizeof_double a)%N /\ (16 * sizeof_double a < 256)%N /\
  (0 < sizeof_char_ptr a)%N /\ (sizeof_char_ptr a < 256)%N /\
  (0 < sizeof_void_ptr a)%N /\ (sizeof_void_ptr a < 256)%N.

(* ================================================================= *)
(** ** nsi.h: typedefs and constants *)

(** [typedef int NSIContext_t;] and [typedef const char* NSIHandle_t;] *)
Definition NSIContext_t : ctype := Tint.
Definition NSIHandle_t : ctype := Tptr (Tconst Tchar).

(** [#define NSI_BAD_CONTEXT ((NSIContext_t)0)] *)
Definition NSI_BAD_CONTEXT : Z := 0%Z.

Definition NSI_SCENE_ROOT : string := ".root".
Definition NSI_SCENE_GLOBAL : string := ".global".
Definition NSI_ALL_NODES : string := ".all".
Definition NSI_ALL_ATTRIBUTES : string := ".all".

(** [#define NSI_VERSION 2] *)
Definition NSI_VERSION : N := 2%N.

(* ================================================================= *)
(** ** nsi.h: [enum NSIType_t] *)

Inductive NSIType_t : Type :=
| NSITypeInvalid
| NSITypeFloat
| NSITypeDouble
| NSITypeInteger
| NSITypeString
| NSITypeColor
| NSITypePoint
| NSITypeVector
| NSITypeNormal
| NSITypeMatrix
| NSITypeDoubleMatrix
| NSITypePointer.

(** The value of each enumerator.  Two of them are written in the header
    in terms of another one: [NSITypeFloat | 0x10], [NSITypeMatrix | 0x10]. *)
Definition NSIType_value (e : NSIType_t) : N :=
  let float_value := 1%N in
  let matrix_value := 8%N in
  match e with
  | NSITypeInvalid => 0
  | NSITypeFloat => float_value
  | NSITypeDouble => N.lor float_value 0x10
  | NSITypeInteger => 2
  | NSITypeString => 3
  | NSITypeColor => 4
  | NSITypePoint => 5
  | NSITypeVector => 6
  | NSITypeNormal => 7
  | NSITypeMatrix => matrix_value
  | NSITypeDoubleMatrix => N.lor matrix_value 0x10
  | NSITypePointer => 9
  end%N.

(** The enumerators, in declaration order. *)
Definition NSIType_enumerators : list NSIType_t :=
  [NSITypeInvalid; NSITypeFloat; NSITypeDouble; NSITypeInteger;
   NSITypeString; NSITypeColor; NSITypePoint; NSITypeVector;
   NSITypeNormal; NSITypeMatrix; NSITypeDoubleMatrix; NSITypePointer].

(** A value is a recognized type tag when some enumerator has it. *)
Definition recognized (t : N) : Prop :=
  exists e : NSIType_t, NSIType_value e = t.

(* ================================================================= *)
(** ** nsi.h: [NSITypeSizeOf] *)

(** [static const unsigned char sizes[]]: 25 initialisers, each converted
    to [unsigned char].  The products are [size_t] arithmetic; its modulus
    is a multiple of 256, so reducing the exact product modulo 256 gives
    the cell's content. *)
Definition sizes (a : abi) : list N :=
  map to_uchar
    [ 0; sizeof_float a; sizeof_int a; sizeof_char_ptr a;
      3 * sizeof_float a; 3 * sizeof_float a; 3 * sizeof_float a; 3 * sizeof_float a;
      16 * sizeof_float a; sizeof_void_ptr a; 0; 0;
      0; 0; 0; 0;
      0; sizeof_double a; 0; 0;
      0; 0; 0; 0;
      16 * sizeof_double a ]%N.

(** [arr[i]]; [None] when [i] is not an index of [arr]. *)
Definition array_read (arr : list N) (i : N) : option N :=
  nth_error arr (N.to_nat i).

(** [return t <= 24 ? sizes[t] : 0;] *)
Definition NSITypeSizeOf (a : abi) (t : N) : option N :=
  if (t <=? 24)%N then array_read (sizes a) t else Some 0%N.

(* ================================================================= *)
(** ** nsi.h: flags and [struct NSIParam_t] *)

(** The anonymous enumeration of flag values. *)
Inductive NSIParamFlag : Type :=
| NSIParamIsArray
| NSIParamPerFace
| NSIParamPerVertex
| NSIParamInterpolateLinear.

Definition NSIParamFlag_value (f : NSIParamFlag) : Z :=
  match f with
  | NSIParamIsArray => 1
  | NSIParamPerFace => 2
  | NSIParamPerVertex => 4
  | NSIParamInterpolateLinear => 8
  end%Z.

(** The bit each flag occupies. *)
Definition NSIParamFlag_bit (f : NSIParamFlag) : Z :=
  match f with
  | NSIParamIsArray => 0
  | NSIParamPerFace => 1
  | NSIParamPerVertex => 2
  | NSIParamInterpolateLinear => 3
  end%Z.

Definition NSIParamFlag_eqb (f g : NSIParamFlag) : bool :=
  match f, g with
  | NSIParamIsArray, NSIParamIsArray
  | NSIParamPerFace, NSIParamPerFace
  | NSIParamPerVertex, NSIParamPerVertex
  | NSIParamInterpolateLinear, NSIParamInterpolateLinear => true
  | _, _ => false
  end.

(** [struct NSIParam_t].  The two pointers are kept as addresses. *)
Record NSIParam_t : Type := {
  name : N;           (* const char *name *)
  data : N;           (* const void *data *)
  type : Z;           (* int type *)
  arraylength : Z;    (* int arraylength *)
  count : N;          (* size_t count *)
  flags : Z           (* int flags *)
}.

(** The bitwise OR of a collection of flags, as a client writes it:
    [f1 | f2 | ... | 0]. *)
Definition flags_or (l : list NSIParamFlag) : Z :=
  fold_right (fun f acc => Z.lor (NSIParamFlag_value f) acc) 0%Z l.

(** [p.flags = f1 | f2 | ...] *)
Definition set_flags (p : NSIParam_t) (l : list NSIParamFlag) : NSIParam_t :=
  {| name := name p; data := data p; type := type p;
     arraylength := arraylength p; count := count p;
     flags := flags_or l |}.

(** [(p.flags & f) != 0] *)
Definition has_flag (p : NSIParam_t) (f : NSIParamFlag) : bool :=
  negb (Z.land (flags p) (NSIParamFlag_value f) =? 0)%Z.

(** The range of a 32-bit [int]. *)
Definition INT_MAX : Z := (2 ^ 31 - 1)%Z.

(* ================================================================= *)
(** ** nsi.h: statuses, error levels and the two callback types *)

Inductive NSIStoppingStatus : Type :=
| NSIRenderCompleted
| NSIRenderAborted
| NSIRenderSynchronized
| NSIRenderRestarted.

Definition NSIStoppingStatus_value (s : NSIStoppingStatus) : Z :=
  match s with
  | NSIRenderCompleted => 0
  | NSIRenderAborted => 1
  | NSIRenderSynchronized => 2
  | NSIRenderRestarted => 3
  end%Z.

Inductive NSIErrorLevel : Type :=
| NSIErrMessage
| NSIErrInfo
| NSIErrWarning
| NSIErrError.

Definition NSIErrorLevel_value (l : NSIErrorLevel) : Z :=
  match l with
  | NSIErrMessage => 0
  | NSIErrInfo => 1
  | NSIErrWarning => 2
  | NSIErrError => 3
  end%Z.

(** [typedef void ( *NSIErrorHandler_t)(
      void *userdata, int level, int code, const char *message );] *)
Definition NSIErrorHandler_t : ctype :=
  Tptr (Tfun Tvoid
    [ ("userdata", Tptr Tvoid); ("level", Tint); ("code", Tint);
      ("message", Tptr (Tconst Tchar)) ]).

(** [typedef void ( *NSIRenderStopped_t)(
      void *userdata, NSIContext_t ctx, int status );] *)
Definition NSIRenderStopped_t : ctype :=
  Tptr (Tfun Tvoid
    [ ("userdata", Tptr Tvoid); ("ctx", NSIContext_t); ("status", Tint) ]).

(** [NSIContext_t NSIBegin( int nparams, const struct NSIParam_t *params );]
    Only the declaration is part of the headers. *)
Definition NSIBegin : ctype :=
  Tfun NSIContext_t
    [ ("nparams", Tint); ("params", Tptr (Tconst (Tstruct "NSIParam_t"))) ].

(* ================================================================= *)
(** ** nsi_procedural.h *)

(** [typedef void ( *NSIReport_t)(NSIContext_t ctx, int level, const char* message);] *)
Definition NSIReport_t : ctype :=
  Tptr (Tfun Tvoid
    [ ("ctx", NSIContext_t); ("level", Tint);
      ("message", Tptr (Tconst Tchar)) ]).

Definition NSIProceduralUnload_t : ctype :=
  Tptr (Tfun Tvoid
    [ ("ctx", NSIContext_t); ("report", NSIReport_t);
      ("proc", Tptr (Tstruct "NSIProcedural_t")) ]).

Definition NSIProceduralExecute_t : ctype :=
  Tptr (Tfun Tvoid
    [ ("ctx", NSIContext_t); ("report", NSIReport_t);
      ("proc", Tptr (Tstruct "NSIProcedural_t"));
      ("nparams", Tint);
      ("params", Tptr (Tconst (Tstruct "NSIParam_t"))) ]).

(** The members of [struct NSIProcedural_t], in declaration order. *)
Definition NSIProcedural_t_members : list (string * ctype) :=
  [ ("nsi_version", Tunsigned);
    ("unload", NSIProceduralUnload_t);
    ("execute", NSIProceduralExecute_t) ].

(** A value of [struct NSIProcedural_t].  [U] and [E] are the values a
    pointer to an unload, respectively execute, function can take. *)
Record NSIProcedural_t (U E : Type) : Type := {
  nsi_version : N;
  unload : U;
  execute : E
}.
Arguments nsi_version {U E} _.
Arguments unload {U E} _.
Arguments execute {U E} _.
Arguments Build_NSIProcedural_t {U E} _ _ _.

Section ProceduralInit.
Context {U E : Type}.

(** The three member assignments. *)
Definition assign_nsi_version (v : N) (proc : NSIProcedural_t U E) :=
  {| nsi_version := v; unload := unload proc; execute := execute proc |}.
Definition assign_unload (u : U) (proc : NSIProcedural_t U E) :=
  {| nsi_version := nsi_version proc; unload := u; execute := execute proc |}.
Definition assign_execute (e : E) (proc : NSIProcedural_t U E) :=
  {| nsi_version := nsi_version proc; unload := unload proc; execute := e |}.

(** [{ (proc).nsi_version = NSI_VERSION;
       (proc).unload = unload_fct;
       (proc).execute = execute_fct; }] *)
Definition NSI_PROCEDURAL_INIT (proc : NSIProcedural_t U E)
    (unload_fct : U) (execute_fct : E) : NSIProcedural_t U E :=
  let proc := assign_nsi_version NSI_VERSION proc in
  let proc := assign_unload unload_fct proc in
  assign_execute execute_fct proc.
End ProceduralInit.

(* ================================================================= *)
(** ** nsi.h: the declared functions *)

(** The trailing pair every function with optional parameters declares:
    [int nparams, const struct NSIParam_t *params]. *)
Definition optional_params : list (string * ctype) :=
  [ ("nparams", Tint); ("params", Tptr (Tconst (Tstruct "NSIParam_t"))) ].

(** [void NSIEnd( NSIContext_t ctx );] *)
Definition NSIEnd : ctype :=
  Tfun Tvoid [ ("ctx", NSIContext_t) ].

Definition NSICreate : ctype :=
  Tfun Tvoid
    [ ("ctx", NSIContext_t); ("handle", NSIHandle_t);
      ("type", Tptr (Tconst Tchar));
      ("nparams", Tint); ("params", Tptr (Tconst (Tstruct "NSIParam_t"))) ].

Definition NSIDelete : ctype :=
  Tfun Tvoid
    [ ("ctx", NSIContext_t); ("handle", NSIHandle_t);
      ("nparams", Tint); ("params", Tptr (Tconst (Tstruct "NSIParam_t"))) ].

Definition NSISetAttribute : ctype :=
  Tfun Tvoid
    [ ("ctx", NSIContext_t); ("object", NSIHandle_t);
      ("nparams", Tint); ("params", Tptr (Tconst (Tstruct "NSIParam_t"))) ].

Definition NSISetAttributeAtTime : ctype :=
  Tfun Tvoid
    [ ("ctx", NSIContext_t); ("object", NSIHandle_t); ("time", Tdouble);
      ("nparams", Tint); ("params", Tptr (Tconst (Tstruct "NSIParam_t"))) ].

Definition NSIDeleteAttribute : ctype :=
  Tfun Tvoid
    [ ("ctx", NSIContext_t); ("object", NSIHandle_t);
      ("name", Tptr (Tconst Tchar)) ].

Definition NSIConnect : ctype :=
  Tfun Tvoid
    [ ("ctx", NSIContext_t);
      ("from", NSIHandle_t); ("from_attr", Tptr (Tconst Tchar));
      ("to", NSIHandle_t); ("to_attr", Tptr (Tconst Tchar));
      ("nparams", Tint); ("params", Tptr (Tconst (Tstruct "NSIParam_t"))) ].

Definition NSIDisconnect : ctype :=
  Tfun Tvoid
    [ ("ctx", NSIContext_t);
      ("from", NSIHandle_t); ("from_attr", Tptr (Tconst Tchar));
      ("to", NSIHandle_t); ("to_attr", Tptr (Tconst Tchar)) ].

Definition NSIEvaluate : ctype :=
  Tfun Tvoid
    [ ("ctx", NSIContext_t);
      ("nparams", Tint); ("params", Tptr (Tconst (Tstruct "NSIParam_t"))) ].

Definition NSIRenderControl : ctype :=
  Tfun Tvoid
    [ ("ctx", NSIContext_t);
      ("nparams", Tint); ("params", Tptr (Tconst (Tstruct "NSIParam_t"))) ].

(** The functions [nsi.h] declares, in declaration order. *)
Definition nsi_api : list (string * ctype) :=
  [ ("NSIBegin", NSIBegin); ("NSIEnd", NSIEnd); ("NSICreate", NSICreate);
    ("NSIDelete", NSIDelete); ("NSISetAttribute", NSISetAttribute);
    ("NSISetAttributeAtTime", NSISetAttributeAtTime);
    ("NSIDeleteAttribute", NSIDeleteAttribute);
    ("NSIConnect", NSIConnect); ("NSIDisconnect", NSIDisconnect);
    ("NSIEvaluate", NSIEvaluate); ("NSIRenderControl", NSIRenderControl) ].

(** The last two parameters of a declaration. *)
Definition last_two (ps : list (string * ctype)) : list (string * ctype) :=
  skipn (List.length ps - 2) ps.

(** All parameters but the last two. *)
Definition but_last_two (ps : list (string * ctype)) : list (string * ctype) :=
  firstn (List.length ps - 2) ps.

(** [typedef struct NSIProcedural_t* ( *NSIProceduralLoad_t)(
      NSIContext_t ctx, NSIReport_t report,
      const char* nsi_library_path, const char* renderer_version);] *)
Definition NSIProceduralLoad_t : ctype :=
  Tptr (Tfun (Tptr (Tstruct "NSIProcedural_t"))
    [ ("ctx", NSIContext_t); ("report", NSIReport_t);
      ("nsi_library_path", Tptr (Tconst Tchar));
      ("renderer_version", Tptr (Tconst Tchar)) ]).

(** [#define NSI_PROCEDURAL_LOAD_SYMBOL NSIProceduralLoad] *)
Definition NSI_PROCEDURAL_LOAD_SYMBOL : string := "NSIProceduralLoad".

(* ================================================================= *)
(** ** Derived notions used in the statements below *)

(** The initialisers of [sizes] as written, before their conversion to
    [unsigned char]. *)
Definition initialisers (a : abi) : list N :=
  [ 0; sizeof_float a; sizeof_int a; sizeof_char_ptr a;
    3 * sizeof_float a; 3 * sizeof_float a; 3 * sizeof_float a; 3 * sizeof_float a;
    16 * sizeof_float a; sizeof_void_ptr a; 0; 0;
    0; 0; 0; 0;
    0; sizeof_double a; 0; 0;
    0; 0; 0; 0;
    16 * sizeof_double a ]%N.



(** The handles the header reserves. *)
Definition reserved_handles : list string :=
  [ NSI_SCENE_ROOT; NSI_SCENE_GLOBAL; NSI_ALL_NODES; NSI_ALL_ATTRIBUTES ].

(* ================================================================= *)
(** * Properties *)

(* ================================================================= *)
(** ** The type tags *)

Lemma NSIType_enumerators_complete (e : NSIType_t) : In e NSIType_enumerators.
Proof. destruct e; simpl; tauto. Qed.

Lemma NSIType_value_injective (e1 e2 : NSIType_t) :
  NSIType_value e1 = NSIType_value e2 -> e1 = e2.
Proof. destruct e1, e2; cbv; intros H; try reflexivity; discriminate H. Qed.

(** A number that is at most [k] is one of [0], ..., [k]. *)
Lemma N_le_cases (k : nat) (t : N) :
  (t <= N.of_nat k)%N -> In t (map N.of_nat (seq 0 (S k))).
Proof.
  intros H. apply in_map_iff. exists (N.to_nat t). split.
  - apply N2Nat.id.
  - apply in_seq. lia.
Qed.

(** The values a recognized tag can have. *)
Lemma recognized_values (t : N) :
  recognized t <-> (t <= 9 \/ t = 17 \/ t = 24)%N.
Proof.
  split.
  - intros [e <-]. destruct e; cbv; intuition discriminate.
  - intros [H | [-> | ->]].
    + apply (N_le_cases 9) in H. cbv in H.
      repeat (destruct H as [<- | H]);
        [ exists NSITypeInvalid | exists NSITypeFloat | exists NSITypeInteger
        | exists NSITypeString | exists NSITypeColor | exists NSITypePoint
        | exists NSITypeVector | exists NSITypeNormal | exists NSITypeMatrix
        | exists NSITypePointer | contradiction ]; reflexivity.
    + exists NSITypeDouble. reflexivity.
    + exists NSITypeDoubleMatrix. reflexivity.
Qed.

(** C2: the enumerators of [NSIType_t] have the values 0 (invalid), 1
    (float), 2 (integer), 3 (string), 4 (color), 5 (point), 6 (vector),
    7 (normal), 8 (matrix) and 9 (pointer), and each double-precision
    variant is its base tag OR 0x10: double is 1|0x10 = 17 and double
    matrix is 8|0x10 = 24. *)
Theorem NSIType_values :
  NSIType_value NSITypeInvalid = 0%N /\
  NSIType_value NSITypeFloat = 1%N /\
  NSIType_value NSITypeInteger = 2%N /\
  NSIType_value NSITypeString = 3%N /\
  NSIType_value NSITypeColor = 4%N /\
  NSIType_value NSITypePoint = 5%N /\
  NSIType_value NSITypeVector = 6%N /\
  NSIType_value NSITypeNormal = 7%N /\
  NSIType_value NSITypeMatrix = 8%N /\
  NSIType_value NSITypePointer = 9%N /\
  NSIType_value NSITypeDouble = N.lor (NSIType_value NSITypeFloat) 0x10 /\
  NSIType_value NSITypeDouble = 17%N /\
  NSIType_value NSITypeDoubleMatrix = N.lor (NSIType_value NSITypeMatrix) 0x10 /\
  NSIType_value NSITypeDoubleMatrix = 24%N.
Proof. repeat split. Qed.

(** Bit 4 tells the double-precision variants from all the other tags. *)
Lemma NSIType_double_bit (e : NSIType_t) :
  N.testbit (NSIType_value e) 4 =
  match e with
  | NSITypeDouble | NSITypeDoubleMatrix => true
  | _ => false
  end.
Proof. destruct e; reflexivity. Qed.

(* ================================================================= *)
(** ** The size table *)

Lemma to_uchar_small (n : N) : (n < 256)%N -> to_uchar n = n.
Proof. intros H. unfold to_uchar. apply N.mod_small. exact H. Qed.

Lemma to_uchar_range (n : N) : (to_uchar n < 256)%N.
Proof. unfold to_uchar. apply N.mod_lt. discriminate. Qed.

Lemma sizes_length (a : abi) : List.length (sizes a) = 25%nat.
Proof. reflexivity. Qed.

Lemma array_read_in_bounds (arr : list N) (i : N) :
  (N.to_nat i < List.length arr)%nat -> exists n, array_read arr i = Some n.
Proof.
  intros H. unfold array_read.
  destruct (nth_error arr (N.to_nat i)) as [n | ] eqn:E.
  - exists n. reflexivity.
  - apply nth_error_None in E. lia.
Qed.

Lemma array_read_out_of_bounds (arr : list N) (i : N) :
  (List.length arr <= N.to_nat i)%nat -> array_read arr i = None.
Proof. intros H. unfold array_read. apply nth_error_None. exact H. Qed.

Lemma NSITypeSizeOf_above (a : abi) (t : N) :
  (24 < t)%N -> NSITypeSizeOf a t = Some 0%N.
Proof.
  intros H. unfold NSITypeSizeOf.
  destruct (N.leb_spec t 24) as [Hle | _]; [ lia | reflexivity ].
Qed.

Lemma NSITypeSizeOf_guarded (a : abi) (t : N) :
  (t <= 24)%N -> NSITypeSizeOf a t = array_read (sizes a) t.
Proof.
  intros H. unfold NSITypeSizeOf.
  destruct (N.leb_spec t 24) as [_ | Hgt]; [ reflexivity | lia ].
Qed.

(** What the function returns for each enumerator, before any assumption
    on the C implementation. *)
Lemma NSITypeSizeOf_enumerator (a : abi) (e : NSIType_t) :
  NSITypeSizeOf a (NSIType_value e) =
  Some (to_uchar
    match e with
    | NSITypeInvalid => 0
    | NSITypeFloat => sizeof_float a
    | NSITypeDouble => sizeof_double a
    | NSITypeInteger => sizeof_int a
    | NSITypeString => sizeof_char_ptr a
    | NSITypeColor | NSITypePoint | NSITypeVector | NSITypeNormal =>
        3 * sizeof_float a
    | NSITypeMatrix => 16 * sizeof_float a
    | NSITypeDoubleMatrix => 16 * sizeof_double a
    | NSITypePointer => sizeof_void_ptr a
    end)%N.
Proof. destruct e; reflexivity. Qed.

(** A value that no enumerator has yields 0. *)
Lemma NSITypeSizeOf_unrecognized (a : abi) (t : N) :
  ~ recognized t -> NSITypeSizeOf a t = Some 0%N.
Proof.
  intros Hn.
  assert (Hv : ~ (t <= 9 \/ t = 17 \/ t = 24)%N).
  { intros H. apply Hn. apply recognized_values. exact H. }
  destruct (N.le_gt_cases t 24) as [Hle | Hgt].
  - apply (N_le_cases 24) in Hle. cbv in Hle.
    repeat (destruct Hle as [<- | Hle]);
      try reflexivity; try contradiction; exfalso; apply Hv; lia.
  - apply NSITypeSizeOf_above. exact Hgt.
Qed.

(** Every enumerator but the invalid one yields a positive size, once
    the table initialisers fit their [unsigned char] cells. *)
Lemma NSITypeSizeOf_enumerator_positive (a : abi) (e : NSIType_t) :
  sizes_fit a -> e <> NSITypeInvalid ->
  exists n, NSITypeSizeOf a (NSIType_value e) = Some n /\ (0 < n)%N.
Proof.
  intros (Hf0 & Hf & Hi0 & Hi & Hd0 & Hd & Hc0 & Hc & Hv0 & Hv) He.
  rewrite NSITypeSizeOf_enumerator.
  eexists. split; [ reflexivity | ].
  destruct e; try contradiction; rewrite to_uchar_small; lia.
Qed.

Lemma ieee_pointers_sizes_fit (a : abi) :
  ieee_int32 a -> pointers_fit a -> sizes_fit a.
Proof.
  unfold ieee_int32, pointers_fit, sizes_fit, pointer_width.
  intros (Hf & Hi & Hd) (Hc & Hp0 & Hp).
  rewrite Hf, Hi, Hd, Hc. repeat split; try exact Hp0; try exact Hp; lia.
Qed.

(** C1: on a C implementation with 4-byte [float] and [int], 8-byte
    [double] and pointers of one width that fits a table cell,
    [NSITypeSizeOf] returns 4 for float, 4 for integer, the pointer
    width for string, 12 for each of color, point, vector and normal, 64
    for matrix, 128 for double matrix, 8 for double and the pointer
    width for pointer. *)
Theorem NSITypeSizeOf_boundary_table (a : abi) :
  ieee_int32 a -> pointers_fit a ->
  NSITypeSizeOf a (NSIType_value NSITypeFloat) = Some 4%N /\
  NSITypeSizeOf a (NSIType_value NSITypeInteger) = Some 4%N /\
  NSITypeSizeOf a (NSIType_value NSITypeString) = Some (pointer_width a) /\
  NSITypeSizeOf a (NSIType_value NSITypeColor) = Some 12%N /\
  NSITypeSizeOf a (NSIType_value NSITypePoint) = Some 12%N /\
  NSITypeSizeOf a (NSIType_value NSITypeVector) = Some 12%N /\
  NSITypeSizeOf a (NSIType_value NSITypeNormal) = Some 12%N /\
  NSITypeSizeOf a (NSIType_value NSITypeMatrix) = Some 64%N /\
  NSITypeSizeOf a (NSIType_value NSITypeDoubleMatrix) = Some 128%N /\
  NSITypeSizeOf a (NSIType_value NSITypeDouble) = Some 8%N /\
  NSITypeSizeOf a (NSIType_value NSITypePointer) = Some (pointer_width a).
Proof.
  intros (Hf & Hi & Hd) (Hc & _ & Hp).
  rewrite !NSITypeSizeOf_enumerator, Hf, Hi, Hd, Hc.
  unfold pointer_width in *.
  rewrite (to_uchar_small (sizeof_void_ptr a) Hp).
  repeat split.
Qed.

Lemma NSITypeSizeOf_boundary_table_lp64 :
  (ieee_int32 lp64 /\ pointers_fit lp64) /\
  NSITypeSizeOf lp64 (NSIType_value NSITypeFloat) = Some 4%N /\
  NSITypeSizeOf lp64 (NSIType_value NSITypeInteger) = Some 4%N /\
  NSITypeSizeOf lp64 (NSIType_value NSITypeString) = Some (pointer_width lp64) /\
  NSITypeSizeOf lp64 (NSIType_value NSITypeColor) = Some 12%N /\
  NSITypeSizeOf lp64 (NSIType_value NSITypePoint) = Some 12%N /\
  NSITypeSizeOf lp64 (NSIType_value NSITypeVector) = Some 12%N /\
  NSITypeSizeOf lp64 (NSIType_value NSITypeNormal) = Some 12%N /\
  NSITypeSizeOf lp64 (NSIType_value NSITypeMatrix) = Some 64%N /\
  NSITypeSizeOf lp64 (NSIType_value NSITypeDoubleMatrix) = Some 128%N /\
  NSITypeSizeOf lp64 (NSIType_value NSITypeDouble) = Some 8%N /\
  NSITypeSizeOf lp64 (NSIType_value NSITypePointer) = Some (pointer_width lp64).
Proof.
  assert (Hi : ieee_int32 lp64) by (repeat split).
  assert (Hp : pointers_fit lp64) by (repeat split).
  split; [ split; assumption | ].
  apply (NSITypeSizeOf_boundary_table lp64 Hi Hp).
Defined.

(** C3, as the claim has it, fails: with 8-byte pointers the pointer tag
    has size 8, so the two sizes are not both 0. *)
Lemma NSITypeSizeOf_pointer_not_zero_lp64 :
  ~ (NSITypeSizeOf lp64 (NSIType_value NSITypeInvalid) = Some 0%N /\
     NSITypeSizeOf lp64 (NSIType_value NSITypePointer) = Some 0%N).
Proof. intros [_ H]. cbv in H. discriminate H. Qed.

(** C3, amended: the table maps the invalid tag to 0 and the pointer tag
    to the pointer width, [sizeof(void* )], which is not 0. *)
Theorem NSITypeSizeOf_invalid_and_pointer (a : abi) :
  pointers_fit a ->
  NSITypeSizeOf a (NSIType_value NSITypeInvalid) = Some 0%N /\
  NSITypeSizeOf a (NSIType_value NSITypePointer) = Some (pointer_width a) /\
  NSITypeSizeOf a (NSIType_value NSITypePointer) <> Some 0%N.
Proof.
  intros (_ & Hp0 & Hp).
  rewrite !NSITypeSizeOf_enumerator.
  unfold pointer_width in *.
  rewrite (to_uchar_small (sizeof_void_ptr a) Hp).
  repeat split.
  intros H. injection H as H. lia.
Qed.

Lemma NSITypeSizeOf_invalid_and_pointer_ilp32 :
  pointers_fit ilp32 /\
  NSITypeSizeOf ilp32 (NSIType_value NSITypeInvalid) = Some 0%N /\
  NSITypeSizeOf ilp32 (NSIType_value NSITypePointer) = Some (pointer_width ilp32) /\
  NSITypeSizeOf ilp32 (NSIType_value NSITypePointer) <> Some 0%N.
Proof.
  assert (Hp : pointers_fit ilp32) by (repeat split).
  split; [ exact Hp | ].
  apply (NSITypeSizeOf_invalid_and_pointer ilp32 Hp).
Defined.

(** C4: when the table initialisers fit their cells, [NSITypeSizeOf t]
    is 0 exactly when [t] is not the value of an enumerator other than
    [NSITypeInvalid]; the values 1 to 9, 17 and 24 yield a positive
    size, and 0, 10 to 16, 18 to 23 and every value above 24 yield 0. *)
Theorem NSITypeSizeOf_zero_iff (a : abi) (t : N) :
  sizes_fit a ->
  (NSITypeSizeOf a t = Some 0%N <->
   ~ exists e, e <> NSITypeInvalid /\ NSIType_value e = t) /\
  ((1 <= t <= 9 \/ t = 17 \/ t = 24)%N ->
   exists n, NSITypeSizeOf a t = Some n /\ (0 < n)%N) /\
  ((t = 0 \/ 10 <= t <= 16 \/ 18 <= t <= 23 \/ 24 < t)%N ->
   NSITypeSizeOf a t = Some 0%N).
Proof.
  intros Hfit.
  assert (Hpos : forall e, e <> NSITypeInvalid ->
            NSITypeSizeOf a (NSIType_value e) <> Some 0%N).
  { intros e He H.
    destruct (NSITypeSizeOf_enumerator_positive a e Hfit He) as (n & Hn & Hn0).
    rewrite Hn in H. injection H as H. lia. }
  assert (Hzero : (~ exists e, e <> NSITypeInvalid /\ NSIType_value e = t) ->
            NSITypeSizeOf a t = Some 0%N).
  { intros Hn.
    destruct (N.eq_dec t 0) as [-> | Ht0]; [ reflexivity | ].
    apply NSITypeSizeOf_unrecognized. intros [e He].
    apply Hn. exists e. split; [ | exact He ].
    intros ->. apply Ht0. symmetry. exact He. }
  split; [ split | split ].
  - intros H [e [He <-]]. exact (Hpos e He H).
  - exact Hzero.
  - intros Ht.
    assert (Hr : recognized t) by (apply recognized_values; lia).
    destruct Hr as [e He]. subst t.
    apply NSITypeSizeOf_enumerator_positive; [ exact Hfit | ].
    intros ->. simpl in Ht. lia.
  - intros Ht. apply Hzero. intros [e [He <-]].
    destruct e; try contradiction; simpl in Ht; lia.
Qed.

Lemma NSITypeSizeOf_zero_iff_lp64_17 :
  sizes_fit lp64 /\
  (NSITypeSizeOf lp64 17 = Some 0%N <->
   ~ exists e, e <> NSITypeInvalid /\ NSIType_value e = 17%N) /\
  ((1 <= 17 <= 9 \/ 17 = 17 \/ 17 = 24)%N ->
   exists n, NSITypeSizeOf lp64 17 = Some n /\ (0 < n)%N) /\
  ((17 = 0 \/ 10 <= 17 <= 16 \/ 18 <= 17 <= 23 \/ 24 < 17)%N ->
   NSITypeSizeOf lp64 17 = Some 0%N).
Proof.
  assert (Hfit : sizes_fit lp64) by (repeat split).
  split; [ exact Hfit | ].
  apply (NSITypeSizeOf_zero_iff lp64 17 Hfit).
Defined.

(** C8: [NSITypeSizeOf] returns a value for every argument.  The table
    has 25 cells, the guard [t <= 24] keeps the index inside them, and
    an argument above 24 yields 0 without a table read. *)
Theorem NSITypeSizeOf_total (a : abi) (t : N) :
  List.length (sizes a) = 25%nat /\
  ((t <= 24)%N -> (N.to_nat t < List.length (sizes a))%nat) /\
  ((24 < t)%N -> NSITypeSizeOf a t = Some 0%N) /\
  (exists n, NSITypeSizeOf a t = Some n) /\
  NSITypeSizeOf a t <> None.
Proof.
  assert (Hin : (t <= 24)%N -> (N.to_nat t < List.length (sizes a))%nat).
  { intros H. rewrite sizes_length. lia. }
  assert (Hex : exists n, NSITypeSizeOf a t = Some n).
  { destruct (N.le_gt_cases t 24) as [Hle | Hgt].
    - rewrite (NSITypeSizeOf_guarded a t Hle).
      apply array_read_in_bounds. exact (Hin Hle).
    - exists 0%N. apply NSITypeSizeOf_above. exact Hgt. }
  repeat split.
  - exact Hin.
  - apply NSITypeSizeOf_above.
  - exact Hex.
  - destruct Hex as [n Hn]. rewrite Hn. discriminate.
Qed.

Lemma NSITypeSizeOf_total_at_25 :
  (24 < 25)%N /\ NSITypeSizeOf lp64 25 = Some 0%N.
Proof.
  assert (H : (24 < 25)%N) by reflexivity.
  split; [ exact H | ].
  exact (proj1 (proj2 (proj2 (NSITypeSizeOf_total lp64 25))) H).
Defined.

(** The guard is what keeps the read inside the table: the cell read for
    an index above 24 does not exist. *)
Lemma sizes_read_past_end (a : abi) (t : N) :
  (24 < t)%N -> array_read (sizes a) t = None.
Proof.
  intros H. apply array_read_out_of_bounds. rewrite sizes_length. lia.
Qed.

(* ================================================================= *)
(** ** Reserved handles, the bad context and the version *)

(** C5: the reserved handles are the strings ".root" for the scene root
    and ".global" for the global settings, and the two wildcards, all
    nodes and all attributes, are one and the same string ".all". *)
Theorem reserved_handle_strings :
  NSI_SCENE_ROOT = ".root" /\
  NSI_SCENE_GLOBAL = ".global" /\
  NSI_ALL_NODES = ".all" /\
  NSI_ALL_ATTRIBUTES = ".all" /\
  NSI_ALL_NODES = NSI_ALL_ATTRIBUTES.
Proof. repeat split. Qed.

(** The root, the global node and the wildcard are told apart by their
    strings. *)
Lemma reserved_handles_distinct :
  NSI_SCENE_ROOT <> NSI_SCENE_GLOBAL /\
  NSI_SCENE_ROOT <> NSI_ALL_NODES /\
  NSI_SCENE_GLOBAL <> NSI_ALL_NODES.
Proof. repeat split; discriminate. Qed.

(** The bad context is the integer 0, and [NSIBegin] is declared to
    return a context. *)
Lemma NSI_BAD_CONTEXT_zero :
  NSI_BAD_CONTEXT = 0%Z /\ return_of NSIBegin = Some NSIContext_t.
Proof. split; reflexivity. Qed.

(* ================================================================= *)
(** ** Callbacks *)

Lemma NSIErrorLevel_value_range (z : Z) :
  (exists l, NSIErrorLevel_value l = z) <-> (0 <= z <= 3)%Z.
Proof.
  split.
  - intros [l <-]. destruct l; simpl; lia.
  - intros H.
    assert (Hc : (z = 0 \/ z = 1 \/ z = 2 \/ z = 3)%Z) by lia.
    destruct Hc as [-> | [-> | [-> | ->]]];
      [ exists NSIErrMessage | exists NSIErrInfo
      | exists NSIErrWarning | exists NSIErrError ]; reflexivity.
Qed.

Lemma NSIStoppingStatus_value_range (z : Z) :
  (exists s, NSIStoppingStatus_value s = z) <-> (0 <= z <= 3)%Z.
Proof.
  split.
  - intros [s <-]. destruct s; simpl; lia.
  - intros H.
    assert (Hc : (z = 0 \/ z = 1 \/ z = 2 \/ z = 3)%Z) by lia.
    destruct Hc as [-> | [-> | [-> | ->]]];
      [ exists NSIRenderCompleted | exists NSIRenderAborted
      | exists NSIRenderSynchronized | exists NSIRenderRestarted ];
      reflexivity.
Qed.

(** C6: the error callback takes (userdata, level, code, message), with
    the levels message = 0, info = 1, warning = 2 and error = 3; the
    stopped callback takes (userdata, context, status), with the
    statuses completed = 0, aborted = 1, synchronized = 2 and
    restarted = 3.  Both return nothing. *)
Theorem callback_signatures :
  param_names NSIErrorHandler_t = ["userdata"; "level"; "code"; "message"] /\
  param_types NSIErrorHandler_t =
    [Tptr Tvoid; Tint; Tint; Tptr (Tconst Tchar)] /\
  return_of NSIErrorHandler_t = Some Tvoid /\
  NSIErrorLevel_value NSIErrMessage = 0%Z /\
  NSIErrorLevel_value NSIErrInfo = 1%Z /\
  NSIErrorLevel_value NSIErrWarning = 2%Z /\
  NSIErrorLevel_value NSIErrError = 3%Z /\
  param_names NSIRenderStopped_t = ["userdata"; "ctx"; "status"] /\
  param_types NSIRenderStopped_t = [Tptr Tvoid; NSIContext_t; Tint] /\
  return_of NSIRenderStopped_t = Some Tvoid /\
  NSIStoppingStatus_value NSIRenderCompleted = 0%Z /\
  NSIStoppingStatus_value NSIRenderAborted = 1%Z /\
  NSIStoppingStatus_value NSIRenderSynchronized = 2%Z /\
  NSIStoppingStatus_value NSIRenderRestarted = 3%Z.
Proof. repeat split. Qed.

(* ================================================================= *)
(** ** The procedural descriptor *)

Section ProceduralFacts.
Context {U E : Type}.

(** A descriptor is its three members and nothing more. *)
Lemma NSIProcedural_t_eta (p : NSIProcedural_t U E) :
  p = Build_NSIProcedural_t (nsi_version p) (unload p) (execute p).
Proof. destruct p. reflexivity. Qed.

(** What the descriptor held before the macro does not matter. *)
Lemma NSI_PROCEDURAL_INIT_overwrites (p q : NSIProcedural_t U E)
    (u : U) (e : E) :
  NSI_PROCEDURAL_INIT p u e = NSI_PROCEDURAL_INIT q u e.
Proof. reflexivity. Qed.

(** C7: the descriptor has the three members [nsi_version], [unload]
    and [execute] and no other; [NSI_PROCEDURAL_INIT] stores
    [NSI_VERSION], which is 2, in [nsi_version], and its two function
    arguments in [unload] and [execute]. *)
Theorem NSI_PROCEDURAL_INIT_declares_version
    (proc : NSIProcedural_t U E) (unload_fct : U) (execute_fct : E) :
  map fst NSIProcedural_t_members = ["nsi_version"; "unload"; "execute"] /\
  map snd NSIProcedural_t_members =
    [Tunsigned; NSIProceduralUnload_t; NSIProceduralExecute_t] /\
  NSI_PROCEDURAL_INIT proc unload_fct execute_fct =
    Build_NSIProcedural_t NSI_VERSION unload_fct execute_fct /\
  nsi_version (NSI_PROCEDURAL_INIT proc unload_fct execute_fct) = NSI_VERSION /\
  NSI_VERSION = 2%N /\
  unload (NSI_PROCEDURAL_INIT proc unload_fct execute_fct) = unload_fct /\
  execute (NSI_PROCEDURAL_INIT proc unload_fct execute_fct) = execute_fct.
Proof. repeat split. Qed.
End ProceduralFacts.

(* ================================================================= *)
(** ** Parameter flags *)

Lemma NSIParamFlag_eqb_eq (f g : NSIParamFlag) :
  NSIParamFlag_eqb f g = true <-> f = g.
Proof. destruct f, g; simpl; split; intros H; congruence. Qed.

Lemma NSIParamFlag_single_bit (f : NSIParamFlag) :
  NSIParamFlag_value f = (2 ^ NSIParamFlag_bit f)%Z.
Proof. destruct f; reflexivity. Qed.

Lemma NSIParamFlag_land (f g : NSIParamFlag) :
  Z.land (NSIParamFlag_value f) (NSIParamFlag_value g) =
  if NSIParamFlag_eqb f g then NSIParamFlag_value f else 0%Z.
Proof. destruct f, g; reflexivity. Qed.

Lemma NSIParamFlag_value_nonzero (f : NSIParamFlag) :
  NSIParamFlag_value f <> 0%Z.
Proof. destruct f; discriminate. Qed.

(** Testing one flag in an OR of flags tells whether it is among them. *)
Lemma flags_or_land (l : list NSIParamFlag) (f : NSIParamFlag) :
  Z.land (flags_or l) (NSIParamFlag_value f) <> 0%Z <-> In f l.
Proof.
  induction l as [ | g l IH ]; simpl.
  - split; [ intros H; apply H; reflexivity | intros [] ].
  - rewrite Z.land_lor_distr_l, Z.lor_eq_0_iff, NSIParamFlag_land.
    destruct (NSIParamFlag_eqb g f) eqn:Egf.
    + apply NSIParamFlag_eqb_eq in Egf. subst g. split.
      * intros _. left. reflexivity.
      * intros _ [H _]. exact (NSIParamFlag_value_nonzero f H).
    + split.
      * intros H. right. apply IH. intros H0. apply H. split; [ reflexivity | exact H0 ].
      * intros [Hg | Hin] [_ H0].
        -- subst g. assert (Ht : NSIParamFlag_eqb f f = true)
             by (apply NSIParamFlag_eqb_eq; reflexivity).
           rewrite Ht in Egf. discriminate Egf.
        -- apply IH in Hin. exact (Hin H0).
Qed.

Lemma flags_or_cons (g : NSIParamFlag) (l : list NSIParamFlag) :
  flags_or (g :: l) = Z.lor (NSIParamFlag_value g) (flags_or l).
Proof. reflexivity. Qed.

Lemma NSIParamFlag_value_range (f : NSIParamFlag) :
  (0 < NSIParamFlag_value f < 2 ^ 4)%Z.
Proof. destruct f; simpl; lia. Qed.

Lemma flags_or_range (l : list NSIParamFlag) : (0 <= flags_or l < 2 ^ 4)%Z.
Proof.
  induction l as [ | g l [IH0 IH1] ].
  - simpl. lia.
  - rewrite flags_or_cons.
    pose proof (NSIParamFlag_value_range g) as [Hg0 Hg1].
    assert (H0 : (0 <= Z.lor (NSIParamFlag_value g) (flags_or l))%Z).
    { apply Z.lor_nonneg. split; [ lia | exact IH0 ]. }
    split; [ exact H0 | ].
    assert (Hn : Z.lor (NSIParamFlag_value g) (flags_or l) <> 0%Z).
    { rewrite Z.lor_eq_0_iff. intros [Hg _]. lia. }
    apply Z.log2_lt_pow2; [ lia | ].
    rewrite Z.log2_lor by lia.
    apply Z.max_lub_lt.
    + apply Z.log2_lt_pow2; lia.
    + destruct (Z.eq_dec (flags_or l) 0) as [-> | Hne].
      * reflexivity.
      * apply Z.log2_lt_pow2; lia.
Qed.

(** The flag test of a record whose [flags] member holds an OR of flags. *)
Lemma has_flag_set_flags (p : NSIParam_t) (l : list NSIParamFlag)
    (f : NSIParamFlag) :
  has_flag (set_flags p l) f = true <-> In f l.
Proof.
  unfold has_flag, set_flags. simpl.
  rewrite negb_true_iff, Z.eqb_neq. apply flags_or_land.
Qed.

(** Order and repetition do not show in the OR: equal sets of flags give
    equal values. *)
Lemma flags_or_same_set (l1 l2 : list NSIParamFlag) :
  (forall f, In f l1 <-> In f l2) -> flags_or l1 = flags_or l2.
Proof.
  intros H. apply Z.bits_inj'. intros n Hn.
  assert (Hb : forall l, Z.testbit (flags_or l) n =
            existsb (fun f => Z.testbit (NSIParamFlag_value f) n) l).
  { induction l as [ | g l IH ]; simpl.
    - apply Z.testbit_0_l.
    - rewrite Z.lor_spec, IH. reflexivity. }
  rewrite !Hb. apply eq_true_iff_eq. rewrite !existsb_exists.
  split; intros [f [Hin Hf]]; exists f; (split; [ apply H; exact Hin | exact Hf ]).
Qed.

(** C9: the four flags have the values 1, 2, 4 and 8, each a single bit,
    no two of them share a bit, and the OR of a collection of flags,
    which fits the [int] member [flags], determines which flags are in
    it: two collections with the same OR contain the same flags. *)
Theorem flags_or_determines_subset (l1 l2 : list NSIParamFlag) :
  NSIParamFlag_value NSIParamIsArray = 1%Z /\
  NSIParamFlag_value NSIParamPerFace = 2%Z /\
  NSIParamFlag_value NSIParamPerVertex = 4%Z /\
  NSIParamFlag_value NSIParamInterpolateLinear = 8%Z /\
  (forall f, NSIParamFlag_value f = (2 ^ NSIParamFlag_bit f)%Z) /\
  (forall f g, f <> g ->
     Z.land (NSIParamFlag_value f) (NSIParamFlag_value g) = 0%Z) /\
  (0 <= flags_or l1 <= INT_MAX)%Z /\
  (forall p f, has_flag (set_flags p l1) f = true <-> In f l1) /\
  (flags_or l1 = flags_or l2 -> forall f, In f l1 <-> In f l2).
Proof.
  repeat split; try reflexivity.
  - apply NSIParamFlag_single_bit.
  - intros f g Hfg. rewrite NSIParamFlag_land.
    destruct (NSIParamFlag_eqb f g) eqn:E; [ | reflexivity ].
    apply NSIParamFlag_eqb_eq in E. contradiction.
  - apply flags_or_range.
  - pose proof (flags_or_range l1) as H. unfold INT_MAX. lia.
  - apply has_flag_set_flags.
  - apply has_flag_set_flags.
  - intros Hin. apply flags_or_land. rewrite <- H. apply flags_or_land. exact Hin.
  - intros Hin. apply flags_or_land. rewrite H. apply flags_or_land. exact Hin.
Qed.

Lemma flags_or_determines_subset_example :
  flags_or [NSIParamIsArray; NSIParamPerVertex] =
  flags_or [NSIParamPerVertex; NSIParamIsArray; NSIParamPerVertex] /\
  (In NSIParamPerVertex [NSIParamIsArray; NSIParamPerVertex] <->
   In NSIParamPerVertex [NSIParamPerVertex; NSIParamIsArray; NSIParamPerVertex]) /\
  (NSIParamPerFace <> NSIParamPerVertex /\
   Z.land (NSIParamFlag_value NSIParamPerFace)
          (NSIParamFlag_value NSIParamPerVertex) = 0%Z).
Proof.
  pose proof (flags_or_determines_subset
                [NSIParamIsArray; NSIParamPerVertex]
                [NSIParamPerVertex; NSIParamIsArray; NSIParamPerVertex])
    as (_ & _ & _ & _ & _ & Hdis & _ & _ & Hsub).
  assert (Heq : flags_or [NSIParamIsArray; NSIParamPerVertex] =
                flags_or [NSIParamPerVertex; NSIParamIsArray; NSIParamPerVertex])
    by reflexivity.
  assert (Hne : NSIParamPerFace <> NSIParamPerVertex) by discriminate.
  split; [ exact Heq | ].
  split; [ exact (Hsub Heq NSIParamPerVertex) | ].
  split; [ exact Hne | exact (Hdis _ _ Hne) ].
Defined.

(* ================================================================= *)
(** ** Further properties of the type tags and of the size table *)

(** X1: two enumerators of [NSIType_t] have the same numeric value only
    when they are the same enumerator, so a tag value names at most one
    type. *)
Theorem NSIType_tags_distinct (e1 e2 : NSIType_t) :
  NSIType_value e1 = NSIType_value e2 <-> e1 = e2.
Proof.
  split.
  - destruct e1, e2; intros H; try reflexivity; cbv in H; discriminate H.
  - intros ->. reflexivity.
Qed.

(** X2: every enumerator's value is an index of the size table, so
    [NSITypeSizeOf] answers for it from the table and not from the
    default branch; the largest value, that of [NSITypeDoubleMatrix], is
    the last index: the table has no cell beyond the tags. *)
Theorem NSIType_values_index_sizes (a : abi) (e : NSIType_t) :
  (N.to_nat (NSIType_value e) < List.length (sizes a))%nat /\
  (NSIType_value e <= NSIType_value NSITypeDoubleMatrix)%N /\
  N.to_nat (NSIType_value NSITypeDoubleMatrix) = (List.length (sizes a) - 1)%nat /\
  NSITypeSizeOf a (NSIType_value e) = array_read (sizes a) (NSIType_value e).
Proof.
  rewrite sizes_length.
  assert (Hle : (NSIType_value e <= 24)%N) by (destruct e; simpl; lia).
  repeat split.
  - lia.
  - exact Hle.
  - apply NSITypeSizeOf_guarded. exact Hle.
Qed.

Lemma sizes_initialisers (a : abi) : sizes a = map to_uchar (initialisers a).
Proof. reflexivity. Qed.

Lemma sizes_cells_range (a : abi) (n : N) : In n (sizes a) -> (n < 256)%N.
Proof.
  rewrite sizes_initialisers. intros H.
  apply in_map_iff in H. destruct H as [m [<- _]]. apply to_uchar_range.
Qed.

(** X3: whatever the C implementation and whatever the argument, the
    size [NSITypeSizeOf] returns is below 256: it is the content of an
    [unsigned char] cell, or 0. *)
Theorem NSITypeSizeOf_below_256 (a : abi) (t : N) :
  exists n, NSITypeSizeOf a t = Some n /\ (n < 256)%N.
Proof.
  destruct (N.le_gt_cases t 24) as [Hle | Hgt].
  - rewrite (NSITypeSizeOf_guarded a t Hle).
    destruct (array_read_in_bounds (sizes a) t) as [n Hn].
    { rewrite sizes_length. lia. }
    exists n. split; [ exact Hn | ].
    apply (sizes_cells_range a). unfold array_read in Hn.
    apply nth_error_In in Hn. exact Hn.
  - exists 0%N. split; [ apply NSITypeSizeOf_above; exact Hgt | reflexivity ].
Qed.

(** X4: the sizes of the composite types are multiples of the scalar
    sizes, whatever these are, as long as the initialisers fit their
    cells: color, point, vector and normal are 3 floats, a matrix is 16
    floats and a double matrix is 16 doubles. *)
Theorem NSITypeSizeOf_composites (a : abi) :
  sizes_fit a ->
  exists f d : N,
    NSITypeSizeOf a (NSIType_value NSITypeFloat) = Some f /\
    NSITypeSizeOf a (NSIType_value NSITypeDouble) = Some d /\
    NSITypeSizeOf a (NSIType_value NSITypeColor) = Some (3 * f)%N /\
    NSITypeSizeOf a (NSIType_value NSITypePoint) = Some (3 * f)%N /\
    NSITypeSizeOf a (NSIType_value NSITypeVector) = Some (3 * f)%N /\
    NSITypeSizeOf a (NSIType_value NSITypeNormal) = Some (3 * f)%N /\
    NSITypeSizeOf a (NSIType_value NSITypeMatrix) = Some (16 * f)%N /\
    NSITypeSizeOf a (NSIType_value NSITypeDoubleMatrix) = Some (16 * d)%N.
Proof.
  intros (Hf0 & Hf & _ & _ & Hd0 & Hd & _).
  exists (sizeof_float a), (sizeof_double a).
  rewrite !NSITypeSizeOf_enumerator.
  rewrite (to_uchar_small (sizeof_float a)) by lia.
  rewrite (to_uchar_small (sizeof_double a)) by lia.
  rewrite (to_uchar_small (3 * sizeof_float a)) by lia.
  rewrite (to_uchar_small (16 * sizeof_float a)) by lia.
  rewrite (to_uchar_small (16 * sizeof_double a)) by lia.
  repeat split.
Qed.

Lemma NSITypeSizeOf_composites_ilp32 :
  sizes_fit ilp32 /\
  exists f d : N,
    NSITypeSizeOf ilp32 (NSIType_value NSITypeFloat) = Some f /\
    NSITypeSizeOf ilp32 (NSIType_value NSITypeDouble) = Some d /\
    NSITypeSizeOf ilp32 (NSIType_value NSITypeColor) = Some (3 * f)%N /\
    NSITypeSizeOf ilp32 (NSIType_value NSITypePoint) = Some (3 * f)%N /\
    NSITypeSizeOf ilp32 (NSIType_value NSITypeVector) = Some (3 * f)%N /\
    NSITypeSizeOf ilp32 (NSIType_value NSITypeNormal) = Some (3 * f)%N /\
    NSITypeSizeOf ilp32 (NSIType_value NSITypeMatrix) = Some (16 * f)%N /\
    NSITypeSizeOf ilp32 (NSIType_value NSITypeDoubleMatrix) = Some (16 * d)%N.
Proof.
  assert (Hfit : sizes_fit ilp32) by (repeat split).
  split; [ exact Hfit | ].
  apply (NSITypeSizeOf_composites ilp32 Hfit).
Defined.

(** X5: only the string and the pointer tag depend on the pointer width.
    Two C implementations that agree on the sizes of [float], [int] and
    [double] give every argument other than 3 and 9 the same size. *)
Theorem NSITypeSizeOf_pointer_width_only (a b : abi) (t : N) :
  sizeof_float a = sizeof_float b ->
  sizeof_int a = sizeof_int b ->
  sizeof_double a = sizeof_double b ->
  t <> NSIType_value NSITypeString ->
  t <> NSIType_value NSITypePointer ->
  NSITypeSizeOf a t = NSITypeSizeOf b t.
Proof.
  intros Hf Hi Hd Hs Hp.
  destruct (N.le_gt_cases t 24) as [Hle | Hgt].
  - apply (N_le_cases 24) in Hle. cbv in Hle.
    repeat (destruct Hle as [<- | Hle]);
      try contradiction;
      try (exfalso; apply Hs; reflexivity);
      try (exfalso; apply Hp; reflexivity);
      unfold NSITypeSizeOf, array_read, sizes; simpl;
      rewrite ?Hf, ?Hi, ?Hd; reflexivity.
  - rewrite !NSITypeSizeOf_above by exact Hgt. reflexivity.
Qed.

Lemma NSITypeSizeOf_pointer_width_only_lp64_ilp32 :
  NSITypeSizeOf lp64 24 = NSITypeSizeOf ilp32 24.
Proof.
  apply (NSITypeSizeOf_pointer_width_only lp64 ilp32 24);
    try reflexivity; discriminate.
Defined.






Local Open Scope list_scope.

(* ================================================================= *)
(** ** Further properties of the flags, levels and statuses *)

(** X8: the OR of a collection of flags does not depend on the order in
    which the flags are written nor on repetitions: two collections with
    the same flags give the same [flags] value. *)
Theorem flags_or_set_only (l1 l2 : list NSIParamFlag) :
  (forall f, In f l1 <-> In f l2) -> flags_or l1 = flags_or l2.
Proof.
  intros H. apply Z.bits_inj'. intros n _.
  assert (Hb : forall l, Z.testbit (flags_or l) n =
            existsb (fun f => Z.testbit (NSIParamFlag_value f) n) l).
  { induction l as [ | g l IH ].
    - apply Z.testbit_0_l.
    - rewrite flags_or_cons, Z.lor_spec, IH. reflexivity. }
  rewrite !Hb.
  destruct (existsb (fun f => Z.testbit (NSIParamFlag_value f) n) l2) eqn:E2.
  - apply existsb_exists in E2. destruct E2 as [f [Hin Hf]].
    apply existsb_exists. exists f. split; [ apply H; exact Hin | exact Hf ].
  - destruct (existsb (fun f => Z.testbit (NSIParamFlag_value f) n) l1) eqn:E1;
      [ | reflexivity ].
    apply existsb_exists in E1. destruct E1 as [f [Hin Hf]].
    rewrite <- E2. symmetry. apply existsb_exists.
    exists f. split; [ apply H; exact Hin | exact Hf ].
Qed.

Lemma flags_or_set_only_example :
  (forall f, In f [NSIParamIsArray; NSIParamPerFace] <->
             In f [NSIParamPerFace; NSIParamIsArray; NSIParamPerFace]) /\
  flags_or [NSIParamIsArray; NSIParamPerFace] =
  flags_or [NSIParamPerFace; NSIParamIsArray; NSIParamPerFace].
Proof.
  assert (H : forall f, In f [NSIParamIsArray; NSIParamPerFace] <->
                        In f [NSIParamPerFace; NSIParamIsArray; NSIParamPerFace]).
  { intros f. simpl. tauto. }
  split; [ exact H | ].
  apply (flags_or_set_only _ _ H).
Defined.

(** X9: the values the [flags] member takes when it is built from the
    four flags are exactly the integers 0 to 15: each OR lies in that
    range, and each integer of the range is the OR of some flags. *)
Theorem flags_or_image (z : Z) :
  (exists l, flags_or l = z) <-> (0 <= z <= 15)%Z.
Proof.
  split.
  - intros [l <-]. pose proof (flags_or_range l) as H.
    change (2 ^ 4)%Z with 16%Z in H. lia.
  - intros H.
    pose (pick := fun (b : bool) (f : NSIParamFlag) =>
                    if b then [f] else []).
    exists (pick (Z.testbit z 0) NSIParamIsArray ++
            pick (Z.testbit z 1) NSIParamPerFace ++
            pick (Z.testbit z 2) NSIParamPerVertex ++
            pick (Z.testbit z 3) NSIParamInterpolateLinear).
    assert (Hc : (z = 0 \/ z = 1 \/ z = 2 \/ z = 3 \/ z = 4 \/ z = 5 \/
                  z = 6 \/ z = 7 \/ z = 8 \/ z = 9 \/ z = 10 \/ z = 11 \/
                  z = 12 \/ z = 13 \/ z = 14 \/ z = 15)%Z) by lia.
    repeat (destruct Hc as [-> | Hc]; [ reflexivity | ]).
    subst z. reflexivity.
Qed.

(** X10: an integer is the value of an error level exactly when it lies
    between 0 and 3, and likewise for the stopping statuses; within each
    enumeration no two enumerators share a value. *)
Theorem levels_and_statuses_are_0_to_3 (z : Z) :
  ((exists l, NSIErrorLevel_value l = z) <-> (0 <= z <= 3)%Z) /\
  ((exists s, NSIStoppingStatus_value s = z) <-> (0 <= z <= 3)%Z) /\
  (forall l1 l2, NSIErrorLevel_value l1 = NSIErrorLevel_value l2 <-> l1 = l2) /\
  (forall s1 s2,
     NSIStoppingStatus_value s1 = NSIStoppingStatus_value s2 <-> s1 = s2).
Proof.
  split; [ apply NSIErrorLevel_value_range | ].
  split; [ apply NSIStoppingStatus_value_range | ].
  split.
  - intros l1 l2. split; [ | intros ->; reflexivity ].
    destruct l1, l2; intros H; try reflexivity; discriminate H.
  - intros s1 s2. split; [ | intros ->; reflexivity ].
    destruct s1, s2; intros H; try reflexivity; discriminate H.
Qed.

(* ================================================================= *)
(** ** Reserved handles *)

(** X11: every reserved handle begins with a dot, so a handle that does
    not begin with a dot is none of the reserved ones. *)
Theorem undotted_handle_not_reserved (s : string) :
  String.prefix "." s = false -> ~ In s reserved_handles.
Proof.
  intros Hs Hin.
  assert (Hdot : forall h, In h reserved_handles -> String.prefix "." h = true).
  { intros h Hh. simpl in Hh.
    destruct Hh as [<- | [<- | [<- | [<- | []]]]]; reflexivity. }
  rewrite (Hdot s Hin) in Hs. discriminate Hs.
Qed.

Lemma undotted_handle_not_reserved_obj1 :
  String.prefix "." "obj1" = false /\ ~ In "obj1" reserved_handles.
Proof.
  assert (H : String.prefix "." "obj1" = false) by reflexivity.
  split; [ exact H | ].
  apply (undotted_handle_not_reserved "obj1" H).
Defined.

(* ================================================================= *)
(** ** The declared functions *)

(** X12: [NSIBegin] is the one declared function that returns a context
    and takes none; every other function returns nothing and takes the
    context as its first parameter. *)
Theorem nsi_api_context (fname : string) (ty : ctype) :
  In (fname, ty) nsi_api ->
  (fname = "NSIBegin" /\ return_of ty = Some NSIContext_t /\
   ~ In "ctx" (param_names ty)) \/
  (fname <> "NSIBegin" /\ return_of ty = Some Tvoid /\
   hd_error (params_of ty) = Some ("ctx", NSIContext_t)).
Proof.
  intros H. simpl in H.
  repeat (destruct H as [H | H];
          [ injection H as <- <-;
            first [ left; repeat split; simpl; intuition discriminate
                  | right; repeat split; discriminate ] | ]).
  contradiction.
Qed.

Lemma nsi_api_context_NSIConnect :
  In ("NSIConnect", NSIConnect) nsi_api /\
  ((("NSIConnect" = "NSIBegin") /\ return_of NSIConnect = Some NSIContext_t /\
    ~ In "ctx" (param_names NSIConnect)) \/
   ("NSIConnect" <> "NSIBegin" /\ return_of NSIConnect = Some Tvoid /\
    hd_error (params_of NSIConnect) = Some ("ctx", NSIContext_t))).
Proof.
  assert (H : In ("NSIConnect", NSIConnect) nsi_api) by (simpl; tauto).
  split; [ exact H | ].
  apply (nsi_api_context "NSIConnect" NSIConnect H).
Defined.

(** X13: a declared function that has a parameter named [params] has
    [int nparams, const struct NSIParam_t *params] as its last two
    parameters and no other parameter of these names; the only functions
    without them are [NSIEnd], [NSIDeleteAttribute] and [NSIDisconnect]. *)
Theorem nsi_api_optional_params (fname : string) (ty : ctype) :
  In (fname, ty) nsi_api ->
  (In fname ["NSIEnd"; "NSIDeleteAttribute"; "NSIDisconnect"] /\
   ~ In "nparams" (param_names ty) /\ ~ In "params" (param_names ty)) \/
  (~ In fname ["NSIEnd"; "NSIDeleteAttribute"; "NSIDisconnect"] /\
   last_two (params_of ty) = optional_params /\
   params_of ty = but_last_two (params_of ty) ++ optional_params /\
   ~ In "nparams" (map fst (but_last_two (params_of ty))) /\
   ~ In "params" (map fst (but_last_two (params_of ty)))).
Proof.
  intros H. simpl in H.
  repeat (destruct H as [H | H];
          [ injection H as <- <-;
            first [ left; repeat split; simpl; intuition discriminate
                  | right; repeat split; simpl; intuition discriminate ] | ]).
  contradiction.
Qed.

Lemma nsi_api_optional_params_NSICreate :
  In ("NSICreate", NSICreate) nsi_api /\
  last_two (params_of NSICreate) = optional_params.
Proof.
  assert (H : In ("NSICreate", NSICreate) nsi_api) by (simpl; tauto).
  split; [ exact H | ].
  destruct (nsi_api_optional_params "NSICreate" NSICreate H)
    as [[Hin _] | [_ [Hl _]]].
  - exfalso. simpl in Hin.
    destruct Hin as [Hin | [Hin | [Hin | []]]]; discriminate Hin.
  - exact Hl.
Defined.

(** X14: the paired operations address their target with the same
    leading parameters: [NSIConnect] is [NSIDisconnect] followed by the
    optional parameters, [NSISetAttributeAtTime] is [NSISetAttribute]
    with [double time] put before the optional parameters, and
    [NSIDeleteAttribute] names its node as [NSISetAttribute] does. *)
Theorem paired_operations_parameters :
  params_of NSIConnect = params_of NSIDisconnect ++ optional_params /\
  params_of NSISetAttributeAtTime =
    but_last_two (params_of NSISetAttribute) ++ [("time", Tdouble)] ++
    optional_params /\
  firstn 2 (params_of NSIDeleteAttribute) =
    but_last_two (params_of NSISetAttribute) /\
  params_of NSICreate =
    but_last_two (params_of NSIDelete) ++ [("type", Tptr (Tconst Tchar))] ++
    optional_params.
Proof. repeat split. Qed.

(** X15: the three procedural entry points take the context and the
    report function as their first two parameters; [execute] takes what
    [unload] takes followed by the optional parameters; the load entry
    point returns a pointer to the descriptor structure that [unload] and
    [execute] receive as third parameter. *)
Theorem procedural_entry_points :
  firstn 2 (params_of NSIProceduralLoad_t) =
    [("ctx", NSIContext_t); ("report", NSIReport_t)] /\
  firstn 2 (params_of NSIProceduralUnload_t) =
    firstn 2 (params_of NSIProceduralLoad_t) /\
  params_of NSIProceduralExecute_t =
    params_of NSIProceduralUnload_t ++ optional_params /\
  return_of NSIProceduralLoad_t = Some (Tptr (Tstruct "NSIProcedural_t")) /\
  nth_error (param_types NSIProceduralUnload_t) 2 =
    return_of NSIProceduralLoad_t /\
  return_of NSIProceduralUnload_t = Some Tvoid /\
  return_of NSIProceduralExecute_t = Some Tvoid /\
  map snd NSIProcedural_t_members =
    [Tunsigned; NSIProceduralUnload_t; NSIProceduralExecute_t].
Proof. repeat split. Qed.
